(** * AppointmentType: the Django model of BACKEND_MODEL_UPDATE.py

    The source declares one Django model, [AppointmentType], stored in the
    table [appointment_types].  Its behaviour comes from the field
    declarations (defaults, [auto_now_add], [auto_now], [max_length],
    [PositiveIntegerField], [unique=True], [unique_together]) together with
    the ORM paths that use them:

    - Create(args)     = [AppointmentType.objects.create] with the arguments as keywords
    - Update(id, f)    = [obj = objects.get(pk=id)], set the fields, [obj.save()]
    - Deactivate(id)   = [obj = objects.get(pk=id)], [obj.is_active = False],
                         [obj.save()]
    - List(t, active)  = [objects.filter(tenant_id=t[, is_active=True])]
    - Display(row)     = [str(row)], i.e. [__str__].

    The storage layer is the database created by the migration of this
    model (PostgreSQL column types): [CharField(max_length=n)] is a
    [varchar(n)] column, [PositiveIntegerField] an [integer] column with
    [CHECK (col >= 0)], [DecimalField(10, 2)] a [numeric(10,2)] column, and
    the two unique constraints are unique indexes, reached through a
    psycopg driver.  Each statement is atomic: a rejected statement leaves
    the rows as they were (an [INSERT] refused by a constraint has still
    drawn its primary key from the sequence). *)

From stdpp Require Import gmap strings list.
From Stdlib Require Import ZArith Ascii String.

Module AppointmentTypes.

(** ** Rows *)

(** One row of [appointment_types].  [tenant_id] is the UUID as its 128-bit
    integer value; [base_consultation_fee] is the decimal counted in
    hundredths (two decimal places); timestamps are clock readings. *)
Record AppointmentType := mkRow {
  tenant_id : Z;
  name : string;
  code : string;
  description : option string;
  duration_default : Z;
  base_consultation_fee : Z;
  is_active : bool;
  color : string;
  created_at : Z;
  updated_at : Z
}.

(** [__str__]: [f"{self.name} ({self.code})"]. *)
Definition __str__ (r : AppointmentType) : string :=
  name r ++ " (" ++ code r ++ ")".

(** ** The clock read by [timezone.now()]

    [timezone.now()] reads the system wall clock.  Between two calls the
    clock may have moved forward, or have been set back (an NTP step, a
    manual reset).  [clock_ticks] lists the moves seen by the successive
    calls, in either direction (once exhausted, the clock stands still). *)
Record Clock := mkClock {
  clock_now : Z;
  clock_ticks : list Z
}.

Definition timezone_now (c : Clock) : Z * Clock :=
  match clock_ticks c with
  | [] => (clock_now c, c)
  | d :: ds =>
      let t := (clock_now c + d)%Z in
      (t, mkClock t ds)
  end.

(** ** The database *)

(** Errors surfaced to the caller: [IntegrityError] is the spec's
    ConstraintViolation (unique or CHECK constraint), [DataError] a value
    that does not fit its column type, [DoesNotExist] the spec's NotFound,
    and [NulCharacter] a text value containing the NUL character, which
    PostgreSQL text cannot hold: the database driver refuses the statement
    before it reaches the server (psycopg2 raises ValueError, psycopg 3
    DataError). *)
Inductive DbError := IntegrityError | DataError | DoesNotExist | NulCharacter.

(** The table keyed by the auto-incremented primary key [id], and the
    primary-key sequence. *)
Record Store := mkStore {
  rows : gmap nat AppointmentType;
  next_id : nat
}.

Record World := mkWorld {
  db : Store;
  clock : Clock
}.

Definition int_min : Z := (- 2147483648)%Z.
Definition int_max : Z := 2147483647%Z.

Fixpoint has_nul (s : string) : bool :=
  match s with
  | EmptyString => false
  | String c s' => Ascii.eqb c Ascii.zero || has_nul s'
  end.

Definition has_nul_opt (o : option string) : bool :=
  match o with Some s => has_nul s | None => false end.

Fixpoint all_spaces (s : string) : bool :=
  match s with
  | EmptyString => true
  | String c s' => Ascii.eqb c " "%char && all_spaces s'
  end.

(** Assignment to a [varchar(n)] column: a longer value is an error unless
    its excess characters are all spaces, in which case it is truncated to
    [n] characters. *)
Definition coerce_varchar (n : nat) (s : string) : option string :=
  if (String.length s <=? n)%nat then Some s
  else if all_spaces (String.substring n (String.length s - n) s)
  then Some (String.substring 0 n s)
  else None.

(** The driver's and the column types' part of a write, before any
    constraint: NUL characters in [name], [code], [description] or [color]
    are refused by the driver; then [name varchar(100)], [code varchar(50)]
    and [color varchar(7)] are coerced, [duration_default] must fit
    [integer] and [base_consultation_fee] [numeric(10,2)]; [tenant_id uuid]
    and [description text] take any value of their type.  The result is the
    row as it will be stored.  (Django before 5.0 first quantizes a decimal
    to [max_digits] on the Python side, so there a fee out of range raises
    [decimal.InvalidOperation] rather than [DataError].) *)
Definition coerce_row (r : AppointmentType) : DbError + AppointmentType :=
  if has_nul (name r) || has_nul (code r) || has_nul_opt (description r)
     || has_nul (color r)
  then inl NulCharacter
  else
    match coerce_varchar 100 (name r), coerce_varchar 50 (code r),
          coerce_varchar 7 (color r) with
    | Some n, Some c, Some col =>
        if (int_min <=? duration_default r)%Z && (duration_default r <=? int_max)%Z
           && (Z.abs (base_consultation_fee r) <? 10 ^ 10)%Z
        then inr (mkRow (tenant_id r) n c (description r) (duration_default r)
                    (base_consultation_fee r) (is_active r) col
                    (created_at r) (updated_at r))
        else inl DataError
    | _, _, _ => inl DataError
    end.

(** [PositiveIntegerField]: [CHECK ("duration_default" >= 0)]. *)
Definition check_constraints_ok (r : AppointmentType) : bool :=
  (0 <=? duration_default r)%Z.

(** Is some row other than [self] (the row being written, if it already
    exists) in conflict with [r] on the given key? *)
Definition other_row_has (self : option nat) (same : AppointmentType -> bool)
    (m : gmap nat AppointmentType) : bool :=
  existsb (fun '(j, r') => negb (bool_decide (Some j = self)) && same r')
    (map_to_list m).

(** [code = CharField(..., unique=True)]. *)
Definition unique_code_violated (self : option nat) (r : AppointmentType)
    (m : gmap nat AppointmentType) : bool :=
  other_row_has self (fun r' => String.eqb (code r') (code r)) m.

(** [unique_together = [('tenant_id', 'code')]]. *)
Definition unique_tenant_code_violated (self : option nat) (r : AppointmentType)
    (m : gmap nat AppointmentType) : bool :=
  other_row_has self
    (fun r' => Z.eqb (tenant_id r') (tenant_id r) && String.eqb (code r') (code r)) m.

(** The constraints, checked on the row as stored: the CHECK constraint,
    then the unique indexes. *)
Definition constraint_check (self : option nat) (r : AppointmentType) (s : Store)
    : option DbError :=
  if negb (check_constraints_ok r) then Some IntegrityError
  else if unique_code_violated self r (rows s)
          || unique_tenant_code_violated self r (rows s)
  then Some IntegrityError
  else None.

(** [INSERT]: the values are coerced to the column types; the primary key
    is then drawn from the sequence ([nextval]), and stays drawn when a
    constraint refuses the row. *)
Definition sql_insert (r : AppointmentType) (s : Store) : (DbError + nat) * Store :=
  match coerce_row r with
  | inl e => (inl e, s)
  | inr r' =>
      let i := next_id s in
      match constraint_check None r' s with
      | Some e => (inl e, mkStore (rows s) (S i))
      | None => (inr i, mkStore (<[i := r']> (rows s)) (S i))
      end
  end.

(** [UPDATE ... WHERE id = i]. *)
Definition sql_update (i : nat) (r : AppointmentType) (s : Store) : DbError + Store :=
  match coerce_row r with
  | inl e => inl e
  | inr r' =>
      match constraint_check (Some i) r' s with
      | Some e => inl e
      | None => inr (mkStore (<[i := r']> (rows s)) (next_id s))
      end
  end.

(** ** The ORM operations *)

Definition field_default {A} (d : A) (o : option A) : A :=
  match o with Some x => x | None => d end.

(** Keyword arguments of [objects.create]: [None] is a field not passed.
    [description] is [null=True], so a passed value may itself be [None]. *)
Record CreateArgs := mkCreateArgs {
  arg_tenant_id : Z;
  arg_name : string;
  arg_code : string;
  arg_description : option (option string);
  arg_duration_default : option Z;
  arg_base_consultation_fee : option Z;
  arg_is_active : option bool;
  arg_color : option string
}.

(** The instance built from the keyword arguments, with the field defaults
    for the fields not passed: [description] is nullable (default [None]),
    [duration_default=15], [Decimal('0.00')], [is_active=True],
    [color='#3b82f6'].  [t1] and [t2] are the values [pre_save] gives
    [created_at] and [updated_at]. *)
Definition new_instance (a : CreateArgs) (t1 t2 : Z) : AppointmentType :=
  mkRow (arg_tenant_id a) (arg_name a) (arg_code a)
    (field_default None (arg_description a))
    (field_default 15%Z (arg_duration_default a))
    (field_default 0%Z (arg_base_consultation_fee a))
    (field_default true (arg_is_active a))
    (field_default "#3b82f6" (arg_color a))
    t1 t2.

(** [objects.create]: [save(force_insert=True)] runs each field's
    [pre_save] in field order, so [created_at] ([auto_now_add], on add) and
    then [updated_at] ([auto_now]) each call [timezone.now()]; then
    [INSERT]. *)
Definition objects_create (a : CreateArgs) (w : World) : (DbError + nat) * World :=
  let '(t1, c1) := timezone_now (clock w) in
  let '(t2, c2) := timezone_now c1 in
  let r := new_instance a t1 t2 in
  let '(res, s') := sql_insert r (db w) in
  (res, mkWorld s' c2).

(** The fields an Update assigns on the fetched instance ([None]: left as
    fetched).  Every field but the primary key can be assigned;
    [editable=False] (implied by [auto_now_add] and [auto_now]) only hides
    [created_at] and [updated_at] from model forms. *)
Record Patch := mkPatch {
  set_tenant_id : option Z;
  set_name : option string;
  set_code : option string;
  set_description : option (option string);
  set_duration_default : option Z;
  set_base_consultation_fee : option Z;
  set_is_active : option bool;
  set_color : option string;
  set_created_at : option Z;
  set_updated_at : option Z
}.

Definition apply_patch (p : Patch) (r : AppointmentType) : AppointmentType :=
  mkRow (field_default (tenant_id r) (set_tenant_id p))
        (field_default (name r) (set_name p))
        (field_default (code r) (set_code p))
        (field_default (description r) (set_description p))
        (field_default (duration_default r) (set_duration_default p))
        (field_default (base_consultation_fee r) (set_base_consultation_fee p))
        (field_default (is_active r) (set_is_active p))
        (field_default (color r) (set_color p))
        (field_default (created_at r) (set_created_at p))
        (field_default (updated_at r) (set_updated_at p)).

(** The instance after [pre_save] with [add=False]: [created_at] as it is
    on the instance, [updated_at] set to [t]. *)
Definition with_updated_at (r : AppointmentType) (t : Z) : AppointmentType :=
  mkRow (tenant_id r) (name r) (code r) (description r)
    (duration_default r) (base_consultation_fee r) (is_active r)
    (color r) (created_at r) t.

(** The row Deactivate writes for the fetched row [r] when the clock reads
    [t]: [is_active = False], [updated_at = t]. *)
Definition deactivated (r : AppointmentType) (t : Z) : AppointmentType :=
  with_updated_at
    (mkRow (tenant_id r) (name r) (code r) (description r)
       (duration_default r) (base_consultation_fee r) false
       (color r) (created_at r) (updated_at r)) t.

(** [obj.save()] on a fetched instance: [pre_save] with [add=False] keeps
    [created_at] as it is on the instance and sets [updated_at] to
    [timezone.now()]; then [UPDATE] of every column. *)
Definition save_existing (i : nat) (r : AppointmentType) (w : World)
    : (DbError + unit) * World :=
  let '(t, c) := timezone_now (clock w) in
  let r' := with_updated_at r t in
  match sql_update i r' (db w) with
  | inl e => (inl e, mkWorld (db w) c)
  | inr s' => (inr tt, mkWorld s' c)
  end.

(** [objects.get(pk=i)]. *)
Definition objects_get (i : nat) (w : World) : DbError + AppointmentType :=
  match rows (db w) !! i with
  | Some r => inr r
  | None => inl DoesNotExist
  end.

(** Update(id, fields). *)
Definition update (i : nat) (p : Patch) (w : World) : (DbError + unit) * World :=
  match objects_get i w with
  | inl e => (inl e, w)
  | inr r => save_existing i (apply_patch p r) w
  end.

(** Deactivate(id): [obj.is_active = False; obj.save()]. *)
Definition deactivate (i : nat) (w : World) : (DbError + unit) * World :=
  match objects_get i w with
  | inl e => (inl e, w)
  | inr r =>
      save_existing i
        (mkRow (tenant_id r) (name r) (code r) (description r)
           (duration_default r) (base_consultation_fee r) false
           (color r) (created_at r) (updated_at r)) w
  end.

(** List(tenant_id, active_only): [objects.filter(tenant_id=t)], further
    filtered on [is_active=True] when asked; no [Meta.ordering]. *)
Definition list_types (t : Z) (active_only : bool) (w : World)
    : list (nat * AppointmentType) :=
  List.filter (fun '(_, r) => Z.eqb (tenant_id r) t && (negb active_only || is_active r))
    (map_to_list (rows (db w))).

(** ** Reachable states *)

Inductive Op :=
| OpCreate (a : CreateArgs)
| OpUpdate (i : nat) (p : Patch)
| OpDeactivate (i : nat).

Definition step (op : Op) (w : World) : World :=
  match op with
  | OpCreate a => snd (objects_create a w)
  | OpUpdate i p => snd (update i p w)
  | OpDeactivate i => snd (deactivate i w)
  end.

(** Starting from the empty table (sequence at 1), any sequence of
    operations, whether they succeed or fail. *)
Inductive reachable : World -> Prop :=
| reachable_init (c : Clock) : reachable (mkWorld (mkStore ∅ 1) c)
| reachable_step (op : Op) (w : World) : reachable w -> reachable (step op w).

Definition empty_world (c : Clock) : World := mkWorld (mkStore ∅ 1) c.

Definition args (t : Z) (n c : string) : CreateArgs :=
  mkCreateArgs t n c None None None None None.

(** Create arguments within the columns' [max_length] (what Django's
    validators accept for the three [CharField]s). *)
Definition within_max_length (a : CreateArgs) : Prop :=
  (String.length (arg_name a) <= 100)%nat /\
  (String.length (arg_code a) <= 50)%nat /\
  (String.length (field_default "#3b82f6" (arg_color a)) <= 7)%nat.

(** ** Invariants of the table *)

(** No two distinct keys hold rows related by [key]. *)
Definition unique_on (key : AppointmentType -> AppointmentType -> Prop)
    (m : gmap nat AppointmentType) : Prop :=
  forall i j r1 r2, m !! i = Some r1 -> m !! j = Some r2 -> key r1 r2 -> i = j.

Definition same_code (r1 r2 : AppointmentType) : Prop := code r1 = code r2.

Definition same_tenant_code (r1 r2 : AppointmentType) : Prop :=
  tenant_id r1 = tenant_id r2 /\ code r1 = code r2.

(** A row as the columns can hold it: no NUL character, the text within
    its [varchar] length, the integers in range, and the CHECK
    constraint. *)
Definition stored_ok (r : AppointmentType) : bool :=
  negb (has_nul (name r) || has_nul (code r) || has_nul_opt (description r)
        || has_nul (color r)) &&
  (String.length (name r) <=? 100)%nat && (String.length (code r) <=? 50)%nat &&
  (String.length (color r) <=? 7)%nat &&
  (int_min <=? duration_default r)%Z && (duration_default r <=? int_max)%Z &&
  (Z.abs (base_consultation_fee r) <? 10 ^ 10)%Z && check_constraints_ok r.

(** What every reachable world satisfies. *)
Record world_inv (w : World) : Prop := {
  inv_fresh : forall i, (next_id (db w) <= i)%nat -> rows (db w) !! i = None;
  inv_code : unique_on same_code (rows (db w));
  inv_tenant_code : unique_on same_tenant_code (rows (db w));
  inv_stored : forall i r, rows (db w) !! i = Some r -> stored_ok r = true
}.

(** Create arguments with the [color] keyword set to [s]. *)
Definition with_arg_color (a : CreateArgs) (s : string) : CreateArgs :=
  mkCreateArgs (arg_tenant_id a) (arg_name a) (arg_code a) (arg_description a)
    (arg_duration_default a) (arg_base_consultation_fee a) (arg_is_active a)
    (Some s).

Definition consultation_args : CreateArgs := args 1 "Consultation" "consultation".

(** Two appointment types of tenant 1, created on a clock standing at 100. *)
Definition world_two_types : World :=
  step (OpCreate (args 1 "Follow-up" "follow_up"))
    (step (OpCreate consultation_args) (empty_world (mkClock 100 []))).

(** A type created with the 4-character color [#fff]. *)
Definition world_short_color : World :=
  step (OpCreate (with_arg_color consultation_args "#fff"))
    (empty_world (mkClock 100 [])).

(** The [consultation] type alone. *)
Definition world_consultation : World :=
  step (OpCreate consultation_args) (empty_world (mkClock 100 [])).

(** The [consultation] type created on a clock that moves between the two
    reads of [timezone.now()] in [save()]. *)
Definition world_ticking_create : World :=
  step (OpCreate consultation_args) (empty_world (mkClock 100 [0; 1]%Z)).

(** The [consultation] type on a clock that has moved by 5 when a second
    Deactivate reads it. *)
Definition world_ticking_deactivate : World :=
  step (OpCreate consultation_args) (empty_world (mkClock 100 [0; 0; 0; 5]%Z)).

(** The [consultation] type on a clock that is set back by 30 before the
    next read. *)
Definition world_clock_set_back : World :=
  step (OpCreate consultation_args) (empty_world (mkClock 100 [0; 0; -30]%Z)).

Definition rename_patch : Patch :=
  mkPatch None (Some "General consultation") None None None None None None None None.

(** Create arguments used to exercise the error paths. *)
Definition other_tenant_args : CreateArgs := args 2 "Consultation" "consultation".

Definition negative_duration_args : CreateArgs :=
  mkCreateArgs 1 "Check-up" "checkup" None (Some (-5)%Z) None None None.

Definition long_color_args : CreateArgs :=
  with_arg_color (args 1 "Check-up" "checkup") "#1234567".

(** [#3b82f6] followed by two spaces: longer than [varchar(7)], excess all
    spaces. *)
Definition padded_color : string := "#3b82f6  ".

(** A string holding the NUL character. *)
Definition nul_string : string := String Ascii.zero EmptyString.

(** Update patches: give a row the code [consultation]; change only the
    description and [is_active]; assign [created_at]. *)
Definition recode_patch : Patch :=
  mkPatch None None (Some "consultation") None None None None None None None.

Definition describe_patch : Patch :=
  mkPatch None None None (Some (Some "Initial visit")) None None (Some false) None
    None None.

Definition backdate_patch : Patch :=
  mkPatch None None None None None None None None (Some 7%Z) None.

Example create_consultation :
  let '(res, w) := objects_create (args 1 "Consultation" "consultation")
                     (empty_world (mkClock 100 [])) in
  res = inr 1%nat /\
  rows (db w) !! 1%nat
  = Some (mkRow 1 "Consultation" "consultation" None 15 0 true "#3b82f6" 100 100).
Proof. vm_compute. split; reflexivity. Qed.

Example create_duplicate :
  let w1 := snd (objects_create (args 1 "Consultation" "consultation")
                   (empty_world (mkClock 100 []))) in
  fst (objects_create (args 1 "" "consultation") w1) = inl IntegrityError.
Proof. vm_compute. reflexivity. Qed.

Example create_padded_color :
  let '(res, w) := objects_create (with_arg_color consultation_args padded_color)
                     (empty_world (mkClock 100 [])) in
  res = inr 1%nat /\ option_map color (rows (db w) !! 1%nat) = Some "#3b82f6".
Proof. vm_compute. split; reflexivity. Qed.

Example update_backdate :
  option_map created_at (rows (db (snd (update 1 backdate_patch world_consultation))) !! 1%nat)
  = Some 7%Z.
Proof. vm_compute. reflexivity. Qed.

Example create_nul_name :
  fst (objects_create (args 1 nul_string "x") (empty_world (mkClock 100 [])))
  = inl NulCharacter.
Proof. vm_compute. reflexivity. Qed.

(** ** Lemmas on the building blocks *)

Lemma substring_prefix_length (n : nat) (s : string) :
  (String.length (String.substring 0 n s) <= n)%nat.
Proof.
  revert n. induction s as [|c s IH]; intros [|n]; simpl; try lia.
  specialize (IH n). lia.
Qed.

Lemma substring_prefix_full (n : nat) (s : string) :
  (String.length s <= n)%nat -> String.substring 0 n s = s.
Proof.
  revert n. induction s as [|c s IH]; intros [|n] H; simpl in *; try done; [lia|].
  rewrite IH; [done | lia].
Qed.

Lemma substring_prefix_exact (n : nat) (s : string) :
  (n <= String.length s)%nat -> String.length (String.substring 0 n s) = n.
Proof.
  revert n. induction s as [|c s IH]; intros [|n] H; simpl in *; try done; [lia|].
  rewrite IH; [done | lia].
Qed.

Lemma substring_prefix_nul (n : nat) (s : string) :
  has_nul s = false -> has_nul (String.substring 0 n s) = false.
Proof.
  revert n. induction s as [|c s IH]; intros [|n] H; simpl in *; try done.
  apply orb_false_iff in H as [H1 H2]. rewrite H1. simpl. by apply IH.
Qed.

Lemma coerce_varchar_short (n : nat) (s : string) :
  (String.length s <= n)%nat -> coerce_varchar n s = Some s.
Proof. intros H. unfold coerce_varchar. apply Nat.leb_le in H. by rewrite H. Qed.

(** A value accepted by a [varchar(n)] column is the value cut to [n]
    characters. *)
Lemma coerce_varchar_Some (n : nat) (s s' : string) :
  coerce_varchar n s = Some s' ->
  s' = String.substring 0 n s /\ (String.length s' <= n)%nat /\
  (has_nul s = false -> has_nul s' = false).
Proof.
  unfold coerce_varchar. destruct (String.length s <=? n)%nat eqn:E.
  - intros H. injection H as <-. apply Nat.leb_le in E.
    rewrite substring_prefix_full by done. done.
  - destruct (all_spaces _); [|discriminate]. intros H. injection H as <-.
    split; [done|]. split; [apply substring_prefix_length | apply substring_prefix_nul].
Qed.

(** What [coerce_row] makes of a row it accepts. *)
Lemma coerce_row_inr (r r' : AppointmentType) :
  coerce_row r = inr r' ->
  stored_ok r' = check_constraints_ok r' /\
  tenant_id r' = tenant_id r /\
  coerce_varchar 100 (name r) = Some (name r') /\
  coerce_varchar 50 (code r) = Some (code r') /\
  description r' = description r /\
  duration_default r' = duration_default r /\
  base_consultation_fee r' = base_consultation_fee r /\
  is_active r' = is_active r /\
  coerce_varchar 7 (color r) = Some (color r') /\
  created_at r' = created_at r /\ updated_at r' = updated_at r.
Proof.
  unfold coerce_row.
  destruct (has_nul (name r) || has_nul (code r) || has_nul_opt (description r)
            || has_nul (color r)) eqn:Enul; [discriminate|].
  repeat apply orb_false_iff in Enul as [Enul ?].
  destruct (coerce_varchar 100 (name r)) as [n|] eqn:En; [|discriminate].
  destruct (coerce_varchar 50 (code r)) as [c|] eqn:Ec; [|discriminate].
  destruct (coerce_varchar 7 (color r)) as [col|] eqn:Ecol; [|discriminate].
  destruct ((int_min <=? duration_default r)%Z && (duration_default r <=? int_max)%Z
            && (Z.abs (base_consultation_fee r) <? 10 ^ 10)%Z) eqn:Erng; [|discriminate].
  intros Hcr. injection Hcr as <-. simpl. repeat (split; [done|]). split; [|done].
  apply coerce_varchar_Some in En as (_ & Ln & Nn).
  apply coerce_varchar_Some in Ec as (_ & Lc & Nc).
  apply coerce_varchar_Some in Ecol as (_ & Lcol & Ncol).
  unfold stored_ok. simpl.
  rewrite Nn, Nc, Ncol by done.
  match goal with Hd : has_nul_opt _ = false |- _ => rewrite Hd end.
  apply Nat.leb_le in Ln, Lc, Lcol. rewrite Ln, Lc, Lcol.
  apply andb_true_iff in Erng as [Erng E3]. apply andb_true_iff in Erng as [E1 E2].
  rewrite E1, E2, E3. reflexivity.
Qed.

(** A row the columns can hold is stored as it is. *)
Lemma coerce_row_stored (r : AppointmentType) :
  stored_ok r = true -> coerce_row r = inr r.
Proof.
  unfold stored_ok. intros H.
  repeat match goal with H : (_ && _) = true |- _ => apply andb_true_iff in H as [? ?] end.
  repeat match goal with H : (_ <=? _)%nat = true |- _ => apply Nat.leb_le in H end.
  unfold coerce_row.
  match goal with Hn : negb _ = true |- _ => apply negb_true_iff in Hn; rewrite Hn end.
  rewrite !coerce_varchar_short by done.
  repeat match goal with H : (_ <=? _)%Z = true |- _ => rewrite H end.
  match goal with H : (_ <? _)%Z = true |- _ => rewrite H end.
  by destruct r.
Qed.

(** The timestamps do not enter [coerce_row]. *)
Lemma coerce_row_with_updated_at (r : AppointmentType) (t : Z) :
  coerce_row (with_updated_at r t)
  = match coerce_row r with
    | inl e => inl e
    | inr r' => inr (with_updated_at r' t)
    end.
Proof. destruct r. unfold coerce_row. simpl. repeat (case_match; simpl); done. Qed.

Lemma coerce_row_new_instance (a : CreateArgs) (t1 t2 : Z) :
  coerce_row (new_instance a t1 t2)
  = match coerce_row (new_instance a 0 0) with
    | inl e => inl e
    | inr r' => inr (mkRow (tenant_id r') (name r') (code r') (description r')
                       (duration_default r') (base_consultation_fee r')
                       (is_active r') (color r') t1 t2)
    end.
Proof. unfold coerce_row, new_instance. simpl. repeat (case_match; simpl); done. Qed.

Lemma coerce_row_inl (r : AppointmentType) (e : DbError) :
  coerce_row r = inl e -> e = NulCharacter \/ e = DataError.
Proof. unfold coerce_row. repeat case_match; intros Hx; first [discriminate | injection Hx as <-; auto]. Qed.

Lemma other_row_has_false (self : option nat) (same : AppointmentType -> bool)
    (m : gmap nat AppointmentType) :
  other_row_has self same m = false ->
  forall j r', m !! j = Some r' -> Some j <> self -> same r' = false.
Proof.
  unfold other_row_has. intros H j r' Hj Hne.
  destruct (same r') eqn:E; [|done]. exfalso.
  assert (Ht : existsb (fun '(j, r') => negb (bool_decide (Some j = self)) && same r')
                 (map_to_list m) = true).
  { apply existsb_exists. exists (j, r'). split.
    - apply list_elem_of_In. by apply elem_of_map_to_list.
    - rewrite bool_decide_false by done. by rewrite E. }
  congruence.
Qed.

Lemma other_row_has_true (self : option nat) (same : AppointmentType -> bool)
    (m : gmap nat AppointmentType) (j : nat) (r' : AppointmentType) :
  m !! j = Some r' -> Some j <> self -> same r' = true ->
  other_row_has self same m = true.
Proof.
  intros Hj Hne Hs. unfold other_row_has. apply existsb_exists.
  exists (j, r'). split.
  - apply list_elem_of_In. by apply elem_of_map_to_list.
  - rewrite bool_decide_false by done. by rewrite Hs.
Qed.

(** What a write that passed the constraints tells about the row and the
    table. *)
Lemma constraint_check_None (self : option nat) (r : AppointmentType) (s : Store) :
  constraint_check self r s = None ->
  check_constraints_ok r = true /\
  (forall j r', rows s !! j = Some r' -> Some j <> self -> ~ same_code r' r) /\
  (forall j r', rows s !! j = Some r' -> Some j <> self -> ~ same_tenant_code r' r).
Proof.
  unfold constraint_check.
  destruct (check_constraints_ok r); [|discriminate].
  destruct (unique_code_violated self r (rows s)) eqn:E1; [discriminate|].
  destruct (unique_tenant_code_violated self r (rows s)) eqn:E2; [discriminate|].
  intros _. split; [done|]. split.
  - intros j r' Hj Hne Hs. unfold same_code in Hs.
    pose proof (other_row_has_false _ _ _ E1 j r' Hj Hne) as F. simpl in F.
    rewrite Hs, String.eqb_refl in F. discriminate.
  - intros j r' Hj Hne [Ht Hc].
    pose proof (other_row_has_false _ _ _ E2 j r' Hj Hne) as F. simpl in F.
    rewrite Ht, Hc, Z.eqb_refl, String.eqb_refl in F. discriminate.
Qed.

(** The constraints look only at [tenant_id], [code] and
    [duration_default]. *)
Lemma constraint_check_fields (self : option nat) (r1 r2 : AppointmentType) (s : Store) :
  tenant_id r1 = tenant_id r2 -> code r1 = code r2 ->
  duration_default r1 = duration_default r2 ->
  constraint_check self r1 s = constraint_check self r2 s.
Proof.
  intros Ht Hc Hd.
  unfold constraint_check, check_constraints_ok, unique_code_violated,
    unique_tenant_code_violated.
  rewrite Ht, Hc, Hd. reflexivity.
Qed.

(** A row whose code another row holds is refused. *)
Lemma constraint_check_code_taken (self : option nat) (r : AppointmentType) (s : Store)
    (j : nat) (r2 : AppointmentType) :
  rows s !! j = Some r2 -> Some j <> self -> code r2 = code r ->
  constraint_check self r s = Some IntegrityError.
Proof.
  intros Hj Hne Hc. unfold constraint_check.
  destruct (negb (check_constraints_ok r)); [done|].
  unfold unique_code_violated.
  rewrite (other_row_has_true self _ (rows s) j r2); [done | done | done |].
  simpl. rewrite Hc. apply String.eqb_refl.
Qed.

Lemma constraint_check_Some (self : option nat) (r : AppointmentType) (s : Store)
    (e : DbError) :
  constraint_check self r s = Some e -> e = IntegrityError.
Proof. unfold constraint_check. repeat case_match; intros Hx; first [discriminate | by injection Hx]. Qed.

Lemma unique_on_insert (key : AppointmentType -> AppointmentType -> Prop)
    (m : gmap nat AppointmentType) (k : nat) (r : AppointmentType) :
  (forall r1 r2, key r1 r2 -> key r2 r1) ->
  unique_on key m ->
  (forall j r', m !! j = Some r' -> j <> k -> ~ key r' r) ->
  unique_on key (<[k := r]> m).
Proof.
  intros Hsym Hu Hnew i j r1 r2 H1 H2 K.
  rewrite lookup_insert in H1. rewrite lookup_insert in H2.
  destruct (decide (k = i)) as [<-|Ei]; destruct (decide (k = j)) as [<-|Ej].
  - done.
  - injection H1 as <-. exfalso. apply (Hnew j r2 H2); [done|]. by apply Hsym.
  - injection H2 as <-. exfalso. by apply (Hnew i r1 H1).
  - by apply (Hu i j r1 r2).
Qed.

Lemma same_code_sym (r1 r2 : AppointmentType) : same_code r1 r2 -> same_code r2 r1.
Proof. unfold same_code. done. Qed.

Lemma same_tenant_code_sym (r1 r2 : AppointmentType) :
  same_tenant_code r1 r2 -> same_tenant_code r2 r1.
Proof. unfold same_tenant_code. naive_solver. Qed.

Lemma string_length_append (s1 s2 : string) :
  String.length (s1 ++ s2)%string = (String.length s1 + String.length s2)%nat.
Proof. induction s1 as [|c s1 IH]; simpl; [done | by rewrite IH]. Qed.

(** ** The invariant holds in every reachable world *)

Lemma world_inv_init (c : Clock) : world_inv (mkWorld (mkStore ∅ 1) c).
Proof.
  split; simpl.
  - intros. apply lookup_empty.
  - intros i j r1 r2 H. by rewrite lookup_empty in H.
  - intros i j r1 r2 H. by rewrite lookup_empty in H.
  - intros i r H. by rewrite lookup_empty in H.
Qed.

(** The invariant is about the table only. *)
Lemma world_inv_db (w w' : World) : world_inv w -> db w' = db w -> world_inv w'.
Proof. intros [Hf Hc Ht Hs] E. split; rewrite E; done. Qed.

(** The rows kept, the sequence advanced. *)
Lemma world_inv_nextval (w w' : World) :
  world_inv w -> rows (db w') = rows (db w) -> next_id (db w') = S (next_id (db w)) ->
  world_inv w'.
Proof.
  intros [Hf Hc Ht Hs] Er En. split; rewrite ?Er; try done.
  intros i Hi. apply Hf. lia.
Qed.

(** Writing at [k] a row accepted by [coerce_row] and the constraints. *)
Lemma world_inv_write (w : World) (s' : Store) (c : Clock) (self : option nat) (k : nat)
    (r r' : AppointmentType) :
  world_inv w -> coerce_row r = inr r' -> constraint_check self r' (db w) = None ->
  (forall j, j <> k -> Some j <> self) ->
  rows s' = <[k := r']> (rows (db w)) ->
  (forall i, (next_id s' <= i)%nat -> rows (db w) !! i = None /\ i <> k) ->
  world_inv (mkWorld s' c).
Proof.
  intros Hw Ecr Ec Hself Er Hnext.
  apply coerce_row_inr in Ecr as [Hst _].
  apply constraint_check_None in Ec as (Hchk & Hc & Ht).
  destruct Hw as [Hf Hu Hut Hs]. split; simpl; rewrite Er.
  - intros i Hi. destruct (Hnext i Hi) as [Hn Hk]. by rewrite lookup_insert_ne.
  - apply unique_on_insert; [apply same_code_sym | done |].
    intros j r0 Hj Hne. exact (Hc j r0 Hj (Hself j Hne)).
  - apply unique_on_insert; [apply same_tenant_code_sym | done |].
    intros j r0 Hj Hne. exact (Ht j r0 Hj (Hself j Hne)).
  - intros i r0 Hi. rewrite lookup_insert in Hi.
    case_decide; [injection Hi as <-; congruence | by apply (Hs i)].
Qed.

Lemma objects_create_inv (a : CreateArgs) (w : World) :
  world_inv w -> world_inv (snd (objects_create a w)).
Proof.
  intros Hw. unfold objects_create.
  destruct (timezone_now (clock w)) as [t1 c1].
  destruct (timezone_now c1) as [t2 c2].
  unfold sql_insert.
  destruct (coerce_row (new_instance a t1 t2)) as [e|r'] eqn:Ecr; simpl.
  { by apply (world_inv_db w). }
  destruct (constraint_check None r' (db w)) as [e|] eqn:Ec; simpl.
  { by apply (world_inv_nextval w). }
  apply (world_inv_write w _ c2 None (next_id (db w)) (new_instance a t1 t2) r');
    try done.
  simpl. intros i Hi. split; [apply (inv_fresh w Hw) |]; lia.
Qed.

(** [save()] of row [i], present in the table, whatever was set on it. *)
Lemma save_existing_inv (i : nat) (old r : AppointmentType) (w : World) :
  world_inv w -> rows (db w) !! i = Some old ->
  world_inv (snd (save_existing i r w)).
Proof.
  intros Hw Hi. unfold save_existing.
  destruct (timezone_now (clock w)) as [t c].
  unfold sql_update.
  destruct (coerce_row (with_updated_at r t)) as [e|r'] eqn:Ecr; simpl.
  { by apply (world_inv_db w). }
  destruct (constraint_check (Some i) r' (db w)) as [e|] eqn:Ec; simpl.
  { by apply (world_inv_db w). }
  apply (world_inv_write w _ c (Some i) i (with_updated_at r t) r'); try done.
  - intros j Hj. congruence.
  - simpl. intros j Hj. split; [by apply (inv_fresh w Hw)|].
    intros ->. rewrite (inv_fresh w Hw i Hj) in Hi. discriminate.
Qed.

Lemma update_inv (i : nat) (p : Patch) (w : World) :
  world_inv w -> world_inv (snd (update i p w)).
Proof.
  intros Hw. unfold update, objects_get.
  destruct (rows (db w) !! i) as [r|] eqn:Hi; [|done].
  by apply (save_existing_inv i r).
Qed.

Lemma deactivate_inv (i : nat) (w : World) :
  world_inv w -> world_inv (snd (deactivate i w)).
Proof.
  intros Hw. unfold deactivate, objects_get.
  destruct (rows (db w) !! i) as [r|] eqn:Hi; [|done].
  by apply (save_existing_inv i r).
Qed.

Lemma reachable_inv (w : World) : reachable w -> world_inv w.
Proof.
  induction 1 as [c | op w _ IH].
  - apply world_inv_init.
  - destruct op; simpl.
    + by apply objects_create_inv.
    + by apply update_inv.
    + by apply deactivate_inv.
Qed.

(** ** Results of the operations *)

Lemma stored_ok_check (r : AppointmentType) :
  stored_ok r = true -> check_constraints_ok r = true.
Proof. unfold stored_ok. intros H. by apply andb_true_iff in H as [_ H]. Qed.

(** Create, case by case. *)
Lemma objects_create_cases (a : CreateArgs) (w : World) :
  let t1 := fst (timezone_now (clock w)) in
  let t2 := fst (timezone_now (snd (timezone_now (clock w)))) in
  let res := fst (objects_create a w) in
  let s' := db (snd (objects_create a w)) in
  match coerce_row (new_instance a t1 t2) with
  | inl e => res = inl e /\ s' = db w
  | inr r' =>
      match constraint_check None r' (db w) with
      | Some e => res = inl e /\ s' = mkStore (rows (db w)) (S (next_id (db w)))
      | None => res = inr (next_id (db w)) /\
                s' = mkStore (<[next_id (db w) := r']> (rows (db w))) (S (next_id (db w)))
      end
  end.
Proof.
  unfold objects_create. simpl.
  destruct (timezone_now (clock w)) as [t1 c1]. simpl.
  destruct (timezone_now c1) as [t2 c2]. simpl.
  unfold sql_insert.
  destruct (coerce_row (new_instance a t1 t2)) as [e|r']; simpl; [done|].
  by destruct (constraint_check None r' (db w)).
Qed.

Lemma objects_create_inr (a : CreateArgs) (w w' : World) (i : nat) :
  objects_create a w = (inr i, w') ->
  i = next_id (db w) /\
  exists r', coerce_row (new_instance a (fst (timezone_now (clock w)))
                           (fst (timezone_now (snd (timezone_now (clock w)))))) = inr r' /\
    constraint_check None r' (db w) = None /\
    db w' = mkStore (<[i := r']> (rows (db w))) (S i).
Proof.
  intros E. pose proof (objects_create_cases a w) as C. simpl in C.
  rewrite E in C. simpl in C.
  destruct (coerce_row _) as [e|r']; [destruct C as [C _]; discriminate|].
  destruct (constraint_check None r' (db w)) as [e|] eqn:Ec;
    [destruct C as [C _]; discriminate|].
  destruct C as [C ->]. injection C as ->. split; [done|]. by exists r'.
Qed.

(** A failed Create keeps the rows; it has drawn a primary key exactly
    when the error comes from a constraint. *)
Lemma objects_create_inl (a : CreateArgs) (w w' : World) (e : DbError) :
  objects_create a w = (inl e, w') ->
  rows (db w') = rows (db w) /\
  next_id (db w') = (match e with IntegrityError => S (next_id (db w)) | _ => next_id (db w) end).
Proof.
  intros E. pose proof (objects_create_cases a w) as C. simpl in C.
  rewrite E in C. simpl in C.
  destruct (coerce_row _) as [e'|r'] eqn:Ecr.
  - destruct C as [C ->]. injection C as <-.
    by destruct (coerce_row_inl _ _ Ecr) as [-> | ->].
  - destruct (constraint_check None r' (db w)) as [e'|] eqn:Ec;
      [|destruct C as [C _]; discriminate].
    destruct C as [C ->]. injection C as <-.
    by rewrite (constraint_check_Some _ _ _ _ Ec).
Qed.

Lemma objects_create_lookup (a : CreateArgs) (w w' : World) (i : nat) :
  objects_create a w = (inr i, w') ->
  exists r', rows (db w') !! i = Some r' /\
    coerce_row (new_instance a (fst (timezone_now (clock w)))
                  (fst (timezone_now (snd (timezone_now (clock w)))))) = inr r'.
Proof.
  intros E. apply objects_create_inr in E as [_ [r' [Ecr [_ ->]]]].
  exists r'. split; [apply lookup_insert_eq | done].
Qed.

Lemma objects_get_Some (i : nat) (w : World) (r : AppointmentType) :
  objects_get i w = inr r <-> rows (db w) !! i = Some r.
Proof.
  unfold objects_get. destruct (rows (db w) !! i); split; congruence.
Qed.

(** [save()] either writes the coerced, stamped row at [i] or leaves the
    table. *)
Lemma save_existing_cases (i : nat) (r : AppointmentType) (w : World)
    (res : DbError + unit) (w' : World) :
  save_existing i r w = (res, w') ->
  clock w' = snd (timezone_now (clock w)) /\
  ((exists r', res = inr tt /\ coerce_row r = inr r' /\
     constraint_check (Some i) (with_updated_at r' (fst (timezone_now (clock w)))) (db w)
     = None /\
     db w' = mkStore (<[i := with_updated_at r' (fst (timezone_now (clock w)))]>
                        (rows (db w))) (next_id (db w))) \/
   (exists e, res = inl e /\ db w' = db w)).
Proof.
  unfold save_existing. destruct (timezone_now (clock w)) as [t c]. simpl.
  unfold sql_update. rewrite coerce_row_with_updated_at.
  destruct (coerce_row r) as [e|r'].
  - intros H. injection H as <- <-. split; [done|]. right. by eexists.
  - destruct (constraint_check (Some i) (with_updated_at r' t) (db w)) as [e|] eqn:Ec.
    + intros H. injection H as <- <-. split; [done|]. right. by eexists.
    + intros H. injection H as <- <-. split; [done|]. left. by exists r'.
Qed.

(** Writing again at [i] a row that keeps the values the constraints look
    at passes them. *)
Lemma constraint_check_resave (w : World) (i : nat) (old r : AppointmentType) :
  world_inv w -> rows (db w) !! i = Some old ->
  tenant_id r = tenant_id old -> code r = code old ->
  duration_default r = duration_default old ->
  constraint_check (Some i) r (db w) = None.
Proof.
  intros Hw Hi Ht Hc Hd. rewrite (constraint_check_fields _ r old) by done.
  unfold constraint_check.
  rewrite (stored_ok_check old (inv_stored w Hw i old Hi)). simpl.
  destruct (unique_code_violated (Some i) old (rows (db w))) eqn:E1.
  { exfalso. unfold unique_code_violated, other_row_has in E1.
    apply existsb_exists in E1 as [[j r'] [Hin Hs]].
    apply list_elem_of_In, elem_of_map_to_list in Hin.
    apply andb_true_iff in Hs as [Hne Hs].
    apply negb_true_iff, bool_decide_eq_false in Hne.
    apply String.eqb_eq in Hs.
    apply Hne. f_equal. by apply (inv_code w Hw j i r' old Hin Hi). }
  destruct (unique_tenant_code_violated (Some i) old (rows (db w))) eqn:E2.
  { exfalso. unfold unique_tenant_code_violated, other_row_has in E2.
    apply existsb_exists in E2 as [[j r'] [Hin Hs]].
    apply list_elem_of_In, elem_of_map_to_list in Hin.
    apply andb_true_iff in Hs as [Hne Hs].
    apply negb_true_iff, bool_decide_eq_false in Hne.
    apply andb_true_iff in Hs as [Hs1 Hs2].
    apply Z.eqb_eq in Hs1. apply String.eqb_eq in Hs2.
    apply Hne. f_equal. apply (inv_tenant_code w Hw j i r' old Hin Hi).
    split; done. }
  done.
Qed.

(** Deactivate of an existing row of an invariant table succeeds. *)
Lemma deactivate_existing (w : World) (i : nat) (r : AppointmentType) :
  world_inv w -> rows (db w) !! i = Some r ->
  deactivate i w
  = (inr tt,
     mkWorld
       (mkStore (<[i := deactivated r (fst (timezone_now (clock w)))]> (rows (db w)))
          (next_id (db w)))
       (snd (timezone_now (clock w)))).
Proof.
  intros Hw Hi. unfold deactivate, objects_get. rewrite Hi.
  unfold save_existing. destruct (timezone_now (clock w)) as [t c]. simpl.
  unfold sql_update.
  assert (Hs : stored_ok (deactivated r t) = true)
    by (rewrite <- (inv_stored w Hw i r Hi); reflexivity).
  change (with_updated_at _ t) with (deactivated r t).
  rewrite (coerce_row_stored _ Hs).
  by rewrite (constraint_check_resave w i r).
Qed.

Lemma list_types_In (t : Z) (active_only : bool) (w : World) (i : nat)
    (r : AppointmentType) :
  In (i, r) (list_types t active_only w) <->
  rows (db w) !! i = Some r /\ tenant_id r = t /\
  (active_only = true -> is_active r = true).
Proof.
  unfold list_types. rewrite filter_In, <- list_elem_of_In, elem_of_map_to_list.
  rewrite andb_true_iff, Z.eqb_eq, orb_true_iff, negb_true_iff.
  split.
  - intros [H [Ht Ha]]. split; [done|]. split; [done|].
    intros ->. destruct Ha; [discriminate | done].
  - intros [H [Ht Ha]]. split; [done|]. split; [done|].
    destruct active_only; [right; by apply Ha | by left].
Qed.

Lemma stored_ok_spec (r : AppointmentType) :
  stored_ok r = true ->
  has_nul (name r) = false /\ has_nul (code r) = false /\
  has_nul_opt (description r) = false /\ has_nul (color r) = false /\
  (String.length (name r) <= 100)%nat /\ (String.length (code r) <= 50)%nat /\
  (String.length (color r) <= 7)%nat /\
  (int_min <= duration_default r <= int_max)%Z /\
  (Z.abs (base_consultation_fee r) < 10 ^ 10)%Z /\ (0 <= duration_default r)%Z.
Proof.
  unfold stored_ok, check_constraints_ok. intros H.
  repeat match goal with H : (_ && _) = true |- _ => apply andb_true_iff in H as [? ?] end.
  repeat match goal with
         | H : negb _ = true |- _ => apply negb_true_iff in H
         | H : (_ || _) = false |- _ => apply orb_false_iff in H as [? ?]
         | H : (_ <=? _)%nat = true |- _ => apply Nat.leb_le in H
         | H : (_ <=? _)%Z = true |- _ => apply Z.leb_le in H
         | H : (_ <? _)%Z = true |- _ => apply Z.ltb_lt in H
         end.
  repeat split; done.
Qed.

Lemma stored_lookup (w : World) (i : nat) (r : AppointmentType) :
  reachable w -> rows (db w) !! i = Some r -> stored_ok r = true.
Proof. intros Hr Hi. exact (inv_stored w (reachable_inv w Hr) i r Hi). Qed.

(** A clash on [(tenant_id, code)] is a clash on [code]. *)
Lemma unique_tenant_code_implied (self : option nat) (r : AppointmentType)
    (m : gmap nat AppointmentType) :
  unique_code_violated self r m = false -> unique_tenant_code_violated self r m = false.
Proof.
  intros H. unfold unique_tenant_code_violated.
  destruct (other_row_has self _ m) eqn:E; [|done]. exfalso.
  unfold other_row_has in E. apply existsb_exists in E as [[j r'] [Hin Hs]].
  apply andb_true_iff in Hs as [Hne Hs]. apply andb_true_iff in Hs as [_ Hc].
  apply String.eqb_eq in Hc. apply list_elem_of_In, elem_of_map_to_list in Hin.
  apply negb_true_iff, bool_decide_eq_false in Hne.
  pose proof (other_row_has_false _ _ _ H j r' Hin Hne) as F. simpl in F.
  rewrite Hc, String.eqb_refl in F. discriminate.
Qed.

Lemma unique_code_violated_None_false (r : AppointmentType) (m : gmap nat AppointmentType) :
  unique_code_violated None r m = false <->
  forall j r', m !! j = Some r' -> code r' <> code r.
Proof.
  split.
  - intros H j r' Hj Hc.
    pose proof (other_row_has_false _ _ _ H j r' Hj ltac:(done)) as F. simpl in F.
    rewrite Hc, String.eqb_refl in F. discriminate.
  - intros H. destruct (unique_code_violated None r m) eqn:E; [|done]. exfalso.
    unfold unique_code_violated, other_row_has in E.
    apply existsb_exists in E as [[j r'] [Hin Hs]].
    apply andb_true_iff in Hs as [_ Hc]. apply String.eqb_eq in Hc.
    apply list_elem_of_In, elem_of_map_to_list in Hin. by apply (H j r').
Qed.

(** A successful [save()] of row [i]. *)
Lemma save_existing_inr (i : nat) (r : AppointmentType) (w w' : World) :
  save_existing i r w = (inr tt, w') ->
  exists r', coerce_row r = inr r' /\
    rows (db w') = <[i := with_updated_at r' (fst (timezone_now (clock w)))]> (rows (db w)).
Proof.
  intros E. apply save_existing_cases in E as [_ [[r' [_ [Ecr [_ ->]]]] | [e [He _]]]];
    [by exists r' | discriminate].
Qed.

(** Two colors accepted by [varchar(7)] give the same outcome up to the
    stored color. *)
Lemma coerce_row_color (a : CreateArgs) (s s' : string) (t1 t2 : Z) :
  has_nul s = false -> coerce_varchar 7 s = Some s' ->
  coerce_row (new_instance (with_arg_color a s) t1 t2)
  = match coerce_row (new_instance (with_arg_color a "#3b82f6") t1 t2) with
    | inl e => inl e
    | inr r' => inr (mkRow (tenant_id r') (name r') (code r') (description r')
                       (duration_default r') (base_consultation_fee r')
                       (is_active r') s' (created_at r') (updated_at r'))
    end.
Proof.
  intros Hn Hc. unfold coerce_row, new_instance, with_arg_color. simpl.
  rewrite Hn, Hc. repeat (case_match; simpl); done.
Qed.

(** ** C1: the two uniqueness constraints *)

(** C1: in every reachable table, no two rows (distinct primary keys) share
    a [code], and no two rows share a [(tenant_id, code)] pair. *)
Theorem C1_code_and_tenant_code_unique (w : World) :
  reachable w ->
  forall (i j : nat) (r1 r2 : AppointmentType), i <> j ->
  rows (db w) !! i = Some r1 -> rows (db w) !! j = Some r2 ->
  code r1 <> code r2 /\ (tenant_id r1, code r1) <> (tenant_id r2, code r2).
Proof.
  intros Hr i j r1 r2 Hne H1 H2. pose proof (reachable_inv w Hr) as Hw. split.
  - intros Hc. apply Hne. by apply (inv_code w Hw i j r1 r2).
  - intros Hp. injection Hp as Ht Hc. apply Hne.
    by apply (inv_tenant_code w Hw i j r1 r2).
Qed.

Lemma C1_witness :
  exists r1 r2,
    rows (db world_two_types) !! 1%nat = Some r1 /\
    rows (db world_two_types) !! 2%nat = Some r2 /\
    code r1 <> code r2 /\ (tenant_id r1, code r1) <> (tenant_id r2, code r2).
Proof.
  eexists; eexists.
  split; [vm_compute; reflexivity|]. split; [vm_compute; reflexivity|].
  apply (C1_code_and_tenant_code_unique world_two_types
           (reachable_step _ _ (reachable_step _ _ (reachable_init _))) 1 2).
  - lia.
  - vm_compute; reflexivity.
  - vm_compute; reflexivity.
Defined.

(** ** C2: a second Create with the same (tenant_id, code) *)

(** C2 as stated, refuted: tenant 1 already has [consultation]; a second
    Create with tenant 1 and code [consultation] whose [color] has 8
    characters, the last not a space, fails with [DataError] (the
    [varchar(7)] conversion comes before the unique indexes), not with
    [IntegrityError]. *)
Lemma C2_counterexample :
  ~ (forall (a : CreateArgs) (w : World) (i : nat) (r : AppointmentType),
       rows (db w) !! i = Some r -> tenant_id r = arg_tenant_id a ->
       code r = arg_code a ->
       fst (objects_create a w) = inl IntegrityError /\
       db (snd (objects_create a w)) = db w).
Proof.
  intros H.
  destruct (H (mkCreateArgs 1 "Consultation" "consultation" None None None None
                 (Some "#1234567"))
              world_consultation 1%nat
              (mkRow 1 "Consultation" "consultation" None 15 0 true "#3b82f6" 100 100))
    as [H1 _]; [vm_compute; reflexivity | reflexivity | reflexivity |].
  vm_compute in H1. discriminate.
Qed.

(** C2 (amended): in a reachable table holding a row with tenant [T] and
    code [C], a Create with tenant [T] and code [C] fails and keeps every
    row.  The error is [IntegrityError] (ConstraintViolation) whenever the
    driver and the column types accept the new row; otherwise it is their
    error ([NulCharacter] or [DataError]).  The refused [INSERT] has drawn
    a primary key exactly in the [IntegrityError] case. *)
Theorem C2_duplicate_create_rejected (a : CreateArgs) (w : World) (i : nat)
    (r : AppointmentType) :
  reachable w ->
  rows (db w) !! i = Some r -> tenant_id r = arg_tenant_id a -> code r = arg_code a ->
  fst (objects_create a w)
  = inl (match coerce_row (new_instance a 0 0) with
         | inl e => e
         | inr _ => IntegrityError
         end) /\
  rows (db (snd (objects_create a w))) = rows (db w) /\
  next_id (db (snd (objects_create a w)))
  = match coerce_row (new_instance a 0 0) with
    | inl _ => next_id (db w)
    | inr _ => S (next_id (db w))
    end.
Proof.
  intros Hr Hi Ht Hc.
  pose proof (stored_ok_spec r (stored_lookup w i r Hr Hi)) as (_ & _ & _ & _ & _ & Lc & _).
  pose proof (objects_create_cases a w) as C. simpl in C.
  rewrite coerce_row_new_instance in C.
  destruct (coerce_row (new_instance a 0 0)) as [e|r0] eqn:E0.
  - destruct C as [-> ->]. done.
  - apply coerce_row_inr in E0 as (_ & _ & _ & Ec & _). simpl in Ec.
    rewrite <- Hc, coerce_varchar_short in Ec by done. injection Ec as Ec.
    rewrite (constraint_check_code_taken None _ (db w) i r) in C; [| done | done | done].
    destruct C as [-> ->]. done.
Qed.

Lemma C2_witness :
  fst (objects_create (args 1 "" "consultation") world_consultation)
  = inl (match coerce_row (new_instance (args 1 "" "consultation") 0 0) with
         | inl e => e
         | inr _ => IntegrityError
         end) /\
  rows (db (snd (objects_create (args 1 "" "consultation") world_consultation)))
  = rows (db world_consultation) /\
  next_id (db (snd (objects_create (args 1 "" "consultation") world_consultation)))
  = match coerce_row (new_instance (args 1 "" "consultation") 0 0) with
    | inl _ => next_id (db world_consultation)
    | inr _ => S (next_id (db world_consultation))
    end.
Proof.
  apply (C2_duplicate_create_rejected (args 1 "" "consultation") world_consultation 1
           (mkRow 1 "Consultation" "consultation" None 15 0 true "#3b82f6" 100 100)).
  - apply reachable_step, reachable_init.
  - vm_compute. reflexivity.
  - reflexivity.
  - reflexivity.
Defined.

(** ** C3 and C10: Display *)

(** C3: [str(row)] is the name, a space, an opening parenthesis, the code
    and a closing parenthesis; for name [Consultation] and code
    [consultation] it is [Consultation (consultation)]. *)
Theorem C3_display_format (r : AppointmentType) :
  __str__ r = (name r ++ String " "%char (String "("%char (code r ++ ")")))%string /\
  (forall t d dur fee act col c u,
     __str__ (mkRow t "Consultation" "consultation" d dur fee act col c u)
     = "Consultation (consultation)").
Proof. split; reflexivity. Qed.

(** C10: [str(row)] depends only on [name] and [code]. *)
Theorem C10_display_depends_on_name_code (r1 r2 : AppointmentType) :
  name r1 = name r2 -> code r1 = code r2 -> __str__ r1 = __str__ r2.
Proof. intros Hn Hc. unfold __str__. by rewrite Hn, Hc. Qed.

Lemma C10_witness :
  __str__ (mkRow 1 "Consultation" "consultation" None 15 0 true "#3b82f6" 100 100)
  = __str__ (mkRow 2 "Consultation" "consultation" (Some "x") 30 5000 false "#000000" 7 9).
Proof. apply C10_display_depends_on_name_code; reflexivity. Defined.

(** ** C4: the color column *)

(** C4 as stated, refuted: a Create with the 4-character color [#fff]
    succeeds and the stored color has 4 characters, not 7. *)
Lemma C4_counterexample :
  ~ (forall w, reachable w ->
       forall (i : nat) (r : AppointmentType), rows (db w) !! i = Some r ->
       String.length (color r) = 7%nat).
Proof.
  intros H.
  assert (Hl : rows (db world_short_color) !! 1%nat
               = Some (mkRow 1 "Consultation" "consultation" None 15 0 true "#fff" 100 100))
    by (vm_compute; reflexivity).
  specialize (H world_short_color (reachable_step _ _ (reachable_init _)) 1%nat _ Hl).
  vm_compute in H. discriminate.
Qed.

(** C4 (amended): every stored color has at most 7 characters (the
    [varchar(7)] column of [max_length=7]); a Create without [color] stores
    [#3b82f6]; the form of the color is not checked: any color without NUL
    that [varchar(7)] accepts (at most 7 characters, or more whose excess is
    spaces, stored cut to 7) makes Create succeed or fail exactly as the
    default color does; a color [varchar(7)] refuses makes Create fail
    with [DataError] or [NulCharacter]. *)
Theorem C4_color_at_most_7 (w : World) :
  reachable w ->
  (forall (i : nat) (r : AppointmentType), rows (db w) !! i = Some r ->
     (String.length (color r) <= 7)%nat) /\
  (forall (a : CreateArgs) (i : nat) (w' : World),
     arg_color a = None -> objects_create a w = (inr i, w') ->
     exists r, rows (db w') !! i = Some r /\ color r = "#3b82f6") /\
  (forall (a : CreateArgs) (s : string),
     has_nul s = false -> coerce_varchar 7 s <> None ->
     fst (objects_create (with_arg_color a s) w)
     = fst (objects_create (with_arg_color a "#3b82f6") w)) /\
  (forall (a : CreateArgs) (s : string), coerce_varchar 7 s = None ->
     fst (objects_create (with_arg_color a s) w) = inl DataError \/
     fst (objects_create (with_arg_color a s) w) = inl NulCharacter).
Proof.
  intros Hr. split; [|split; [|split]].
  - intros i r Hi. by apply (stored_ok_spec r (stored_lookup w i r Hr Hi)).
  - intros a i w' Hc Hcr. apply objects_create_lookup in Hcr as [r' [Hl Ecr]].
    exists r'. split; [done|].
    apply coerce_row_inr in Ecr as (_ & _ & _ & _ & _ & _ & _ & _ & Ecol & _).
    simpl in Ecol. rewrite Hc in Ecol. vm_compute in Ecol. by injection Ecol.
  - intros a s Hn Hs. destruct (coerce_varchar 7 s) as [s'|] eqn:Ec; [|done].
    unfold objects_create.
    destruct (timezone_now (clock w)) as [t1 c1].
    destruct (timezone_now c1) as [t2 c2].
    unfold sql_insert. rewrite (coerce_row_color a s s' t1 t2 Hn Ec).
    destruct (coerce_row (new_instance (with_arg_color a "#3b82f6") t1 t2)) as [e|r'];
      [done|].
    rewrite (constraint_check_fields None _ r') by done.
    by destruct (constraint_check None r' (db w)).
  - intros a s Hs. pose proof (objects_create_cases (with_arg_color a s) w) as C.
    simpl in C.
    destruct (coerce_row _) as [e|r'] eqn:Ecr.
    + destruct C as [-> _].
      destruct (coerce_row_inl _ _ Ecr) as [-> | ->]; [by right | by left].
    + apply coerce_row_inr in Ecr as (_ & _ & _ & _ & _ & _ & _ & _ & Ecol & _).
      simpl in Ecol. congruence.
Qed.

Lemma C4_witness :
  (forall (i : nat) (r : AppointmentType), rows (db world_consultation) !! i = Some r ->
     (String.length (color r) <= 7)%nat) /\
  (forall (a : CreateArgs) (i : nat) (w' : World),
     arg_color a = None -> objects_create a world_consultation = (inr i, w') ->
     exists r, rows (db w') !! i = Some r /\ color r = "#3b82f6") /\
  (forall (a : CreateArgs) (s : string),
     has_nul s = false -> coerce_varchar 7 s <> None ->
     fst (objects_create (with_arg_color a s) world_consultation)
     = fst (objects_create (with_arg_color a "#3b82f6") world_consultation)) /\
  (forall (a : CreateArgs) (s : string), coerce_varchar 7 s = None ->
     fst (objects_create (with_arg_color a s) world_consultation) = inl DataError \/
     fst (objects_create (with_arg_color a s) world_consultation) = inl NulCharacter).
Proof.
  apply (C4_color_at_most_7 world_consultation (reachable_step _ _ (reachable_init _))).
Defined.

(** ** C5: duration_default *)

(** C5: in every reachable table [duration_default] is non-negative (the
    [CHECK] of [PositiveIntegerField]); it is a value of every row, and a
    Create without it stores 15. *)
Theorem C5_duration_default_nonneg (w : World) :
  reachable w ->
  (forall (i : nat) (r : AppointmentType), rows (db w) !! i = Some r ->
     (0 <= duration_default r)%Z) /\
  (forall (a : CreateArgs) (i : nat) (w' : World),
     arg_duration_default a = None -> objects_create a w = (inr i, w') ->
     exists r, rows (db w') !! i = Some r /\ duration_default r = 15%Z).
Proof.
  intros Hr. split.
  - intros i r Hi. by apply (stored_ok_spec r (stored_lookup w i r Hr Hi)).
  - intros a i w' Hd Hcr. apply objects_create_lookup in Hcr as [r' [Hl Ecr]].
    exists r'. split; [done|].
    apply coerce_row_inr in Ecr as (_ & _ & _ & _ & _ & Ed & _).
    rewrite Ed. simpl. by rewrite Hd.
Qed.

Lemma C5_witness :
  (forall (i : nat) (r : AppointmentType), rows (db world_two_types) !! i = Some r ->
     (0 <= duration_default r)%Z) /\
  (forall (a : CreateArgs) (i : nat) (w' : World),
     arg_duration_default a = None -> objects_create a world_two_types = (inr i, w') ->
     exists r, rows (db w') !! i = Some r /\ duration_default r = 15%Z).
Proof.
  apply (C5_duration_default_nonneg world_two_types
           (reachable_step _ _ (reachable_step _ _ (reachable_init _)))).
Defined.

(** ** C9: Create then List *)

(** C9: after a successful Create, List of the tenant contains the new row,
    with the given values and the defaults for the fields not passed
    ([is_active = true], fee [0.00], color [#3b82f6], duration 15).  A text
    value is stored cut to its column length (a longer value is accepted
    only when its excess is spaces); for values within [max_length] the
    stored [name], [code] and [color] are the given ones. *)
Theorem C9_create_then_list (a : CreateArgs) (w w' : World) (i : nat) :
  objects_create a w = (inr i, w') ->
  exists r, In (i, r) (list_types (arg_tenant_id a) false w') /\
    tenant_id r = arg_tenant_id a /\
    name r = String.substring 0 100 (arg_name a) /\
    code r = String.substring 0 50 (arg_code a) /\
    description r = field_default None (arg_description a) /\
    duration_default r = field_default 15%Z (arg_duration_default a) /\
    base_consultation_fee r = field_default 0%Z (arg_base_consultation_fee a) /\
    is_active r = field_default true (arg_is_active a) /\
    color r = String.substring 0 7 (field_default "#3b82f6" (arg_color a)) /\
    (within_max_length a ->
       name r = arg_name a /\ code r = arg_code a /\
       color r = field_default "#3b82f6" (arg_color a)).
Proof.
  intros Hcr. apply objects_create_lookup in Hcr as [r [Hl Ecr]].
  apply coerce_row_inr in Ecr as (_ & Et & En & Ec & Ed & Edur & Ef & Ea & Ecol & _).
  simpl in *.
  apply coerce_varchar_Some in En as [En _].
  apply coerce_varchar_Some in Ec as [Ec _].
  apply coerce_varchar_Some in Ecol as [Ecol _].
  exists r. split.
  { apply list_types_In. split; [done|]. split; [done|]. discriminate. }
  repeat (split; [done|]).
  intros (Ln & Lc & Lcol).
  rewrite En, Ec, Ecol, !substring_prefix_full by done. done.
Qed.

Lemma C9_witness :
  exists r, In (1%nat, r) (list_types 1 false world_consultation) /\
    tenant_id r = 1%Z /\
    name r = String.substring 0 100 "Consultation" /\
    code r = String.substring 0 50 "consultation" /\
    description r = None /\ duration_default r = 15%Z /\
    base_consultation_fee r = 0%Z /\ is_active r = true /\
    color r = String.substring 0 7 "#3b82f6" /\
    (within_max_length consultation_args ->
       name r = "Consultation" /\ code r = "consultation" /\ color r = "#3b82f6").
Proof.
  apply (C9_create_then_list consultation_args (empty_world (mkClock 100 []))
           world_consultation 1).
  vm_compute. reflexivity.
Defined.

(** ** C6: created_at and updated_at *)

(** C6 as stated, refuted: at creation [created_at] and [updated_at] come
    from two calls of [timezone.now()]; with a clock that moves between
    them the new row has [created_at = 100] and [updated_at = 101]. *)
Lemma C6_counterexample :
  ~ (forall (a : CreateArgs) (w w' : World) (i : nat) (r : AppointmentType),
       objects_create a w = (inr i, w') -> rows (db w') !! i = Some r ->
       created_at r = updated_at r).
Proof.
  intros H.
  assert (Hc : objects_create consultation_args (empty_world (mkClock 100 [0; 1]%Z))
               = (inr 1%nat, world_ticking_create)) by (vm_compute; reflexivity).
  assert (Hl : rows (db world_ticking_create) !! 1%nat
               = Some (mkRow 1 "Consultation" "consultation" None 15 0 true "#3b82f6" 100 101))
    by (vm_compute; reflexivity).
  specialize (H _ _ _ _ _ Hc Hl). simpl in H. discriminate.
Qed.

(** C6 (amended): in a reachable table, no operation changes the
    [created_at] of a row, except an Update of that row that assigns
    [created_at] ([save()] stores the value found on the instance); Create
    sets [created_at] and then [updated_at] from two successive reads of
    the clock; a successful Update stores the [created_at] it assigned, or
    else the one fetched, and sets [updated_at] to the current reading of
    the clock; a successful Deactivate keeps [created_at] and sets
    [updated_at] to the current reading. *)
Theorem C6_timestamps (w : World) :
  reachable w ->
  (forall (op : Op) (j : nat) (r : AppointmentType), rows (db w) !! j = Some r ->
     (forall (i : nat) (p : Patch), op = OpUpdate i p -> i <> j \/ set_created_at p = None) ->
     exists r', rows (db (step op w)) !! j = Some r' /\ created_at r' = created_at r) /\
  (forall (a : CreateArgs) (i : nat) (w' : World), objects_create a w = (inr i, w') ->
     exists r, rows (db w') !! i = Some r /\
       created_at r = fst (timezone_now (clock w)) /\
       updated_at r = fst (timezone_now (snd (timezone_now (clock w))))) /\
  (forall (i : nat) (p : Patch) (old : AppointmentType) (w' : World),
     rows (db w) !! i = Some old -> update i p w = (inr tt, w') ->
     exists r, rows (db w') !! i = Some r /\
       created_at r = field_default (created_at old) (set_created_at p) /\
       updated_at r = fst (timezone_now (clock w))) /\
  (forall (i : nat) (old : AppointmentType) (w' : World),
     rows (db w) !! i = Some old -> deactivate i w = (inr tt, w') ->
     exists r, rows (db w') !! i = Some r /\ created_at r = created_at old /\
       updated_at r = fst (timezone_now (clock w))).
Proof.
  intros Hr. pose proof (reachable_inv w Hr) as Hw.
  split; [|split; [|split]].
  - intros op j r Hj Hop. destruct op as [a | i p | i]; simpl.
    + destruct (objects_create a w) as [[e | k] w'] eqn:E; simpl.
      * apply objects_create_inl in E as [-> _]. by exists r.
      * apply objects_create_inr in E as [-> [r' [_ [_ ->]]]]. simpl.
        rewrite lookup_insert_ne; [by exists r|].
        intros <-. rewrite (inv_fresh w Hw (next_id (db w))) in Hj; [discriminate | lia].
    + unfold update, objects_get.
      destruct (rows (db w) !! i) as [old|] eqn:Hi; [|by exists r].
      destruct (save_existing i (apply_patch p old) w) as [[e|[]] w'] eqn:E; simpl.
      * apply save_existing_cases in E as [_ [[r' [? _]] | [e' [_ ->]]]];
          [discriminate | by exists r].
      * apply save_existing_inr in E as [r' [Ecr ->]].
        apply coerce_row_inr in Ecr as (_ & _ & _ & _ & _ & _ & _ & _ & _ & Ecr & _).
        rewrite lookup_insert. case_decide as Hij; [|by exists r].
        subst j. rewrite Hi in Hj. injection Hj as <-.
        eexists. split; [done|]. simpl. rewrite Ecr. simpl.
        destruct (Hop i p eq_refl) as [Hne | ->]; [done | done].
    + destruct (rows (db w) !! i) as [old|] eqn:Hi;
        [|unfold deactivate, objects_get; rewrite Hi; by exists r].
      rewrite (deactivate_existing w i old Hw Hi). simpl.
      rewrite lookup_insert. case_decide as Hij; [|by exists r].
      subst j. rewrite Hi in Hj. injection Hj as <-. by eexists.
  - intros a i w' E. apply objects_create_lookup in E as [r [Hl Ecr]].
    apply coerce_row_inr in Ecr as (_ & _ & _ & _ & _ & _ & _ & _ & _ & Ec & Eu).
    by exists r.
  - intros i p old w' Hi. unfold update, objects_get. rewrite Hi.
    intros E. apply save_existing_inr in E as [r' [Ecr ->]].
    apply coerce_row_inr in Ecr as (_ & _ & _ & _ & _ & _ & _ & _ & _ & Ec & _).
    eexists. split; [apply lookup_insert_eq|]. simpl. by rewrite Ec.
  - intros i old w' Hi. rewrite (deactivate_existing w i old Hw Hi).
    intros E. injection E as <-. simpl.
    eexists. split; [apply lookup_insert_eq | done].
Qed.

Lemma C6_witness :
  (forall (op : Op) (j : nat) (r : AppointmentType),
     rows (db world_consultation) !! j = Some r ->
     (forall (i : nat) (p : Patch), op = OpUpdate i p -> i <> j \/ set_created_at p = None) ->
     exists r', rows (db (step op world_consultation)) !! j = Some r' /\
                created_at r' = created_at r) /\
  (forall (a : CreateArgs) (i : nat) (w' : World),
     objects_create a world_consultation = (inr i, w') ->
     exists r, rows (db w') !! i = Some r /\
       created_at r = fst (timezone_now (clock world_consultation)) /\
       updated_at r = fst (timezone_now (snd (timezone_now (clock world_consultation))))) /\
  (forall (i : nat) (p : Patch) (old : AppointmentType) (w' : World),
     rows (db world_consultation) !! i = Some old ->
     update i p world_consultation = (inr tt, w') ->
     exists r, rows (db w') !! i = Some r /\
       created_at r = field_default (created_at old) (set_created_at p) /\
       updated_at r = fst (timezone_now (clock world_consultation))) /\
  (forall (i : nat) (old : AppointmentType) (w' : World),
     rows (db world_consultation) !! i = Some old ->
     deactivate i world_consultation = (inr tt, w') ->
     exists r, rows (db w') !! i = Some r /\ created_at r = created_at old /\
       updated_at r = fst (timezone_now (clock world_consultation))).
Proof.
  apply (C6_timestamps world_consultation (reachable_step _ _ (reachable_init _))).
Defined.

(** ** C7: updated_at after an Update *)

(** C7 as stated, refuted: [updated_at] is the wall clock read by
    [timezone.now()], which can be set back; the row created at 100 gets
    [updated_at = 70] from an Update made after the clock was set back
    by 30. *)
Lemma C7_counterexample :
  ~ (forall (w w' : World) (i : nat) (p : Patch) (r : AppointmentType),
       reachable w -> rows (db w) !! i = Some r -> update i p w = (inr tt, w') ->
       exists r', rows (db w') !! i = Some r' /\ (updated_at r <= updated_at r')%Z).
Proof.
  intros H.
  destruct (H world_clock_set_back (snd (update 1 rename_patch world_clock_set_back)) 1
              rename_patch
              (mkRow 1 "Consultation" "consultation" None 15 0 true "#3b82f6" 100 100))
    as [r' [Hl Hle]].
  - apply reachable_step, reachable_init.
  - vm_compute. reflexivity.
  - vm_compute. reflexivity.
  - vm_compute in Hl. injection Hl as <-. simpl in Hle. lia.
Qed.

(** C7 (amended): a successful Update of row [i] sets its [updated_at] to
    the clock reading taken by [save()]; so the new [updated_at] is at
    least the previous one exactly when that reading is, which holds as
    long as the clock has not been set back below the previous value. *)
Theorem C7_update_sets_updated_at (w w' : World) (i : nat) (p : Patch)
    (r : AppointmentType) :
  rows (db w) !! i = Some r -> update i p w = (inr tt, w') ->
  exists r', rows (db w') !! i = Some r' /\
    updated_at r' = fst (timezone_now (clock w)) /\
    ((updated_at r <= updated_at r')%Z <-> (updated_at r <= fst (timezone_now (clock w)))%Z).
Proof.
  intros Hi. unfold update, objects_get. rewrite Hi.
  intros E. apply save_existing_inr in E as [r' [_ ->]].
  eexists. split; [apply lookup_insert_eq|]. simpl. done.
Qed.

Lemma C7_witness :
  exists r', rows (db (snd (update 1 rename_patch world_clock_set_back))) !! 1%nat = Some r' /\
    updated_at r' = fst (timezone_now (clock world_clock_set_back)) /\
    ((100 <= updated_at r')%Z <-> (100 <= fst (timezone_now (clock world_clock_set_back)))%Z).
Proof.
  apply (C7_update_sets_updated_at world_clock_set_back
           (snd (update 1 rename_patch world_clock_set_back)) 1 rename_patch
           (mkRow 1 "Consultation" "consultation" None 15 0 true "#3b82f6" 100 100)).
  - vm_compute. reflexivity.
  - vm_compute. reflexivity.
Defined.

(** ** C8: Deactivate twice *)

(** C8 as stated, refuted: the second Deactivate calls [save()] again, which
    sets [updated_at] to the current time; on a clock that has moved by 5
    the table after the second call differs from the table after the
    first. *)
Lemma C8_counterexample :
  ~ (forall (w : World) (i : nat) (r : AppointmentType),
       reachable w -> rows (db w) !! i = Some r ->
       fst (deactivate i (snd (deactivate i w))) = inr tt /\
       db (snd (deactivate i (snd (deactivate i w)))) = db (snd (deactivate i w))).
Proof.
  intros H.
  destruct (H world_ticking_deactivate 1%nat
              (mkRow 1 "Consultation" "consultation" None 15 0 true "#3b82f6" 100 100))
    as [_ Heq].
  - apply reachable_step, reachable_init.
  - vm_compute. reflexivity.
  - vm_compute in Heq. discriminate.
Qed.

(** C8 (amended): on a reachable table, Deactivate of an existing row
    succeeds, keeps the row and sets [is_active] to false; a second
    Deactivate also succeeds and leaves [is_active] false.  Each call
    leaves every other row and the sequence as they were and sets the
    row's [updated_at] to the clock reading of that call, so the two
    resulting tables differ only in that [updated_at]. *)
Theorem C8_deactivate_twice (w : World) (i : nat) (r : AppointmentType) :
  reachable w -> rows (db w) !! i = Some r ->
  let w1 := snd (deactivate i w) in
  let w2 := snd (deactivate i w1) in
  fst (deactivate i w) = inr tt /\ fst (deactivate i w1) = inr tt /\
  (exists r1, rows (db w1) !! i = Some r1 /\ is_active r1 = false) /\
  (exists r2, rows (db w2) !! i = Some r2 /\ is_active r2 = false) /\
  rows (db w1) = <[i := deactivated r (fst (timezone_now (clock w)))]> (rows (db w)) /\
  rows (db w2) = <[i := deactivated r (fst (timezone_now (clock w1)))]> (rows (db w)) /\
  next_id (db w1) = next_id (db w) /\ next_id (db w2) = next_id (db w).
Proof.
  intros Hr Hi. pose proof (reachable_inv w Hr) as Hw.
  pose proof (deactivate_inv i w Hw) as Hw1.
  rewrite (deactivate_existing w i r Hw Hi) in Hw1 |- *. simpl in Hw1 |- *.
  rewrite (deactivate_existing _ i _ Hw1 (lookup_insert_eq _ _ _)). simpl.
  split; [done|]. split; [done|].
  split; [rewrite lookup_insert_eq; by eexists|].
  split; [rewrite lookup_insert_eq; by eexists|].
  split; [done|]. split; [|done].
  rewrite insert_insert_eq. reflexivity.
Qed.

Lemma C8_witness :
  let w1 := snd (deactivate 1 world_ticking_deactivate) in
  let w2 := snd (deactivate 1 w1) in
  fst (deactivate 1 world_ticking_deactivate) = inr tt /\ fst (deactivate 1 w1) = inr tt /\
  (exists r1, rows (db w1) !! 1%nat = Some r1 /\ is_active r1 = false) /\
  (exists r2, rows (db w2) !! 1%nat = Some r2 /\ is_active r2 = false) /\
  rows (db w1)
  = <[1%nat := deactivated (mkRow 1 "Consultation" "consultation" None 15 0 true
                              "#3b82f6" 100 100)
                 (fst (timezone_now (clock world_ticking_deactivate)))]>
      (rows (db world_ticking_deactivate)) /\
  rows (db w2)
  = <[1%nat := deactivated (mkRow 1 "Consultation" "consultation" None 15 0 true
                              "#3b82f6" 100 100)
                 (fst (timezone_now (clock w1)))]>
      (rows (db world_ticking_deactivate)) /\
  next_id (db w1) = next_id (db world_ticking_deactivate) /\
  next_id (db w2) = next_id (db world_ticking_deactivate).
Proof.
  apply (C8_deactivate_twice world_ticking_deactivate 1
           (mkRow 1 "Consultation" "consultation" None 15 0 true "#3b82f6" 100 100)).
  - apply reachable_step, reachable_init.
  - vm_compute. reflexivity.
Defined.

(** ** Further properties of the model *)

(** X2: Create succeeds, with the next primary key, exactly when the
    driver and the column types accept the new row, its stored
    [duration_default] is non-negative and no row of any tenant holds its
    stored code; the [(tenant_id, code)] constraint never decides on its
    own. *)
Theorem X2_create_succeeds_iff (a : CreateArgs) (w : World) :
  fst (objects_create a w) = inr (next_id (db w)) <->
  exists r', coerce_row (new_instance a 0 0) = inr r' /\ (0 <= duration_default r')%Z /\
    (forall (j : nat) (r : AppointmentType), rows (db w) !! j = Some r -> code r <> code r').
Proof.
  pose proof (objects_create_cases a w) as C. simpl in C.
  rewrite coerce_row_new_instance in C.
  destruct (coerce_row (new_instance a 0 0)) as [e|r0].
  { destruct C as [-> _]. split; [discriminate | intros [r' [? _]]; discriminate]. }
  unfold constraint_check, check_constraints_ok in C. simpl in C.
  destruct (0 <=? duration_default r0)%Z eqn:Ed; simpl in C.
  2: { destruct C as [-> _]. split; [discriminate|].
       intros [r' [Hr' [Hd _]]]. injection Hr' as <-. apply Z.leb_nle in Ed. lia. }
  apply Z.leb_le in Ed.
  set (r1 := mkRow (tenant_id r0) (name r0) (code r0) (description r0)
               (duration_default r0) (base_consultation_fee r0) (is_active r0)
               (color r0) (fst (timezone_now (clock w)))
               (fst (timezone_now (snd (timezone_now (clock w)))))) in C.
  destruct (unique_code_violated None r1 (rows (db w))) eqn:Eu; simpl in C.
  - destruct C as [-> _]. split; [discriminate|].
    intros [r' [Hr' [_ H]]]. injection Hr' as <-.
    assert (Hf : unique_code_violated None r1 (rows (db w)) = false).
    { apply unique_code_violated_None_false. exact H. }
    congruence.
  - rewrite (unique_tenant_code_implied _ _ _ Eu) in C. simpl in C.
    destruct C as [-> _]. split; [intros _|done].
    exists r0. split; [done|]. split; [done|].
    exact (proj1 (unique_code_violated_None_false r1 _) Eu).
Qed.

(** X3: a Create whose row the driver and the column types accept, but
    whose stored code is already held by a row of any tenant, fails with
    [IntegrityError]; the rows are unchanged and the primary-key sequence
    has advanced by one. *)
Theorem X3_create_code_taken_any_tenant (a : CreateArgs) (w : World) (j : nat)
    (r r' : AppointmentType) :
  coerce_row (new_instance a 0 0) = inr r' ->
  rows (db w) !! j = Some r -> code r = code r' ->
  fst (objects_create a w) = inl IntegrityError /\
  rows (db (snd (objects_create a w))) = rows (db w) /\
  next_id (db (snd (objects_create a w))) = S (next_id (db w)).
Proof.
  intros Ecr Hj Hc. pose proof (objects_create_cases a w) as C. simpl in C.
  rewrite coerce_row_new_instance, Ecr in C.
  rewrite (constraint_check_code_taken None _ (db w) j r) in C; [| done | done | done].
  by destruct C as [-> ->].
Qed.

Lemma X3_witness :
  fst (objects_create other_tenant_args world_consultation) = inl IntegrityError /\
  rows (db (snd (objects_create other_tenant_args world_consultation)))
  = rows (db world_consultation) /\
  next_id (db (snd (objects_create other_tenant_args world_consultation)))
  = S (next_id (db world_consultation)).
Proof.
  apply (X3_create_code_taken_any_tenant other_tenant_args world_consultation 1
           (mkRow 1 "Consultation" "consultation" None 15 0 true "#3b82f6" 100 100)
           (mkRow 2 "Consultation" "consultation" None 15 0 true "#3b82f6" 0 0));
    vm_compute; reflexivity.
Defined.

(** X4: a Create whose row the driver and the column types accept but
    whose [duration_default] is negative is refused by the [CHECK]
    constraint of [PositiveIntegerField] with [IntegrityError]; the rows
    are unchanged and the primary-key sequence has advanced by one. *)
Theorem X4_create_negative_duration (a : CreateArgs) (w : World) (r' : AppointmentType) :
  coerce_row (new_instance a 0 0) = inr r' ->
  (field_default 15 (arg_duration_default a) < 0)%Z ->
  fst (objects_create a w) = inl IntegrityError /\
  rows (db (snd (objects_create a w))) = rows (db w) /\
  next_id (db (snd (objects_create a w))) = S (next_id (db w)).
Proof.
  intros Ecr Hd. pose proof (objects_create_cases a w) as C. simpl in C.
  rewrite coerce_row_new_instance, Ecr in C.
  apply coerce_row_inr in Ecr as (_ & _ & _ & _ & _ & Edur & _). simpl in Edur.
  unfold constraint_check, check_constraints_ok in C. simpl in C.
  destruct (0 <=? duration_default r')%Z eqn:E; [apply Z.leb_le in E; lia|].
  simpl in C. by destruct C as [-> ->].
Qed.

Lemma X4_witness :
  fst (objects_create negative_duration_args world_consultation) = inl IntegrityError /\
  rows (db (snd (objects_create negative_duration_args world_consultation)))
  = rows (db world_consultation) /\
  next_id (db (snd (objects_create negative_duration_args world_consultation)))
  = S (next_id (db world_consultation)).
Proof.
  apply (X4_create_negative_duration negative_duration_args world_consultation
           (mkRow 1 "Check-up" "checkup" None (-5) 0 true "#3b82f6" 0 0));
    vm_compute; reflexivity.
Defined.

(** X5: a Create with no NUL character in its text values but with a
    [name], [code] or [color] that [varchar] refuses (longer than 100, 50 or
    7 characters, with a character other than a space beyond that length)
    fails with [DataError] and leaves the table, sequence included, as it
    was. *)
Theorem X5_create_varchar_misfit (a : CreateArgs) (w : World) :
  has_nul (arg_name a) = false -> has_nul (arg_code a) = false ->
  has_nul_opt (field_default None (arg_description a)) = false ->
  has_nul (field_default "#3b82f6" (arg_color a)) = false ->
  coerce_varchar 100 (arg_name a) = None \/ coerce_varchar 50 (arg_code a) = None \/
  coerce_varchar 7 (field_default "#3b82f6" (arg_color a)) = None ->
  fst (objects_create a w) = inl DataError /\ db (snd (objects_create a w)) = db w.
Proof.
  intros Hn Hc Hd Hcol Hv. pose proof (objects_create_cases a w) as C. simpl in C.
  assert (E : coerce_row (new_instance a (fst (timezone_now (clock w)))
                            (fst (timezone_now (snd (timezone_now (clock w))))))
              = inl DataError).
  { unfold coerce_row, new_instance. simpl. rewrite Hn, Hc, Hd, Hcol. simpl.
    destruct Hv as [-> | [-> | ->]]; repeat destruct (coerce_varchar _ _); done. }
  by rewrite E in C.
Qed.

Lemma X5_witness :
  fst (objects_create long_color_args world_two_types) = inl DataError /\
  db (snd (objects_create long_color_args world_two_types)) = db world_two_types.
Proof.
  apply X5_create_varchar_misfit; try (vm_compute; reflexivity).
  right. right. vm_compute. reflexivity.
Defined.

(** X14: a Create with the NUL character in [name], [code], [description]
    or [color] is refused by the driver ([NulCharacter]) before any other
    check, and leaves the table, sequence included, as it was. *)
Theorem X14_create_nul_refused (a : CreateArgs) (w : World) :
  has_nul (arg_name a) || has_nul (arg_code a)
  || has_nul_opt (field_default None (arg_description a))
  || has_nul (field_default "#3b82f6" (arg_color a)) = true ->
  fst (objects_create a w) = inl NulCharacter /\ db (snd (objects_create a w)) = db w.
Proof.
  intros Hnul. pose proof (objects_create_cases a w) as C. simpl in C.
  assert (E : coerce_row (new_instance a (fst (timezone_now (clock w)))
                            (fst (timezone_now (snd (timezone_now (clock w))))))
              = inl NulCharacter).
  { unfold coerce_row. simpl. by rewrite Hnul. }
  by rewrite E in C.
Qed.

Lemma X14_witness :
  fst (objects_create (args 1 nul_string "x") world_consultation) = inl NulCharacter /\
  db (snd (objects_create (args 1 nul_string "x") world_consultation)) = db world_consultation.
Proof. apply X14_create_nul_refused. vm_compute. reflexivity. Defined.

(** X7: after Deactivate of an existing row of a reachable table, the row
    is still listed for its tenant but no longer among the active ones. *)
Theorem X7_deactivate_then_list (w : World) (i : nat) (r : AppointmentType) :
  reachable w -> rows (db w) !! i = Some r ->
  (exists r', In (i, r') (list_types (tenant_id r) false (snd (deactivate i w)))) /\
  (forall (t : Z) (r' : AppointmentType),
     ~ In (i, r') (list_types t true (snd (deactivate i w)))).
Proof.
  intros Hr Hi. pose proof (reachable_inv w Hr) as Hw.
  rewrite (deactivate_existing w i r Hw Hi). cbn [snd]. split.
  - eexists. apply list_types_In. simpl.
    rewrite lookup_insert_eq. split; [done|]. split; [done|]. discriminate.
  - intros t r' Hin. apply list_types_In in Hin as [Hl [_ Ha]].
    simpl in Hl. rewrite lookup_insert_eq in Hl. injection Hl as <-.
    specialize (Ha eq_refl). discriminate.
Qed.

Lemma X7_witness :
  (exists r', In (1%nat, r') (list_types 1 false (snd (deactivate 1 world_consultation)))) /\
  (forall (t : Z) (r' : AppointmentType),
     ~ In (1%nat, r') (list_types t true (snd (deactivate 1 world_consultation)))).
Proof.
  apply (X7_deactivate_then_list world_consultation 1
           (mkRow 1 "Consultation" "consultation" None 15 0 true "#3b82f6" 100 100)).
  - apply reachable_step, reachable_init.
  - vm_compute. reflexivity.
Defined.

(** X8: on a reachable table, a successful Create takes the next primary
    key, which held no row, and leaves every other row as it was. *)
Theorem X8_create_fresh_key_frame (a : CreateArgs) (w w' : World) (i : nat) :
  reachable w -> objects_create a w = (inr i, w') ->
  i = next_id (db w) /\ rows (db w) !! i = None /\
  (forall j : nat, j <> i -> rows (db w') !! j = rows (db w) !! j).
Proof.
  intros Hr E. pose proof (reachable_inv w Hr) as Hw.
  apply objects_create_inr in E as [-> [r' [_ [_ ->]]]]. split; [done|]. split.
  - apply (inv_fresh w Hw). lia.
  - intros j Hj. simpl. by apply lookup_insert_ne.
Qed.

Lemma X8_witness :
  2%nat = next_id (db world_consultation) /\ rows (db world_consultation) !! 2%nat = None /\
  (forall j : nat, j <> 2%nat ->
     rows (db world_two_types) !! j = rows (db world_consultation) !! j).
Proof.
  apply (X8_create_fresh_key_frame (args 1 "Follow-up" "follow_up") world_consultation
           world_two_types 2).
  - apply reachable_step, reachable_init.
  - vm_compute. reflexivity.
Defined.

(** X10: an Update that gives row [i] the code of another row [j] (of any
    tenant), with values the driver and the column types accept, fails with
    [IntegrityError] and leaves the table unchanged. *)
Theorem X10_update_code_clash (i j : nat) (p : Patch) (w : World)
    (old r2 r' : AppointmentType) :
  rows (db w) !! i = Some old -> rows (db w) !! j = Some r2 -> j <> i ->
  coerce_row (apply_patch p old) = inr r' -> code r' = code r2 ->
  fst (update i p w) = inl IntegrityError /\ db (snd (update i p w)) = db w.
Proof.
  intros Hi Hj Hne Ecr Hc. unfold update, objects_get. rewrite Hi.
  unfold save_existing. destruct (timezone_now (clock w)) as [t c]. simpl.
  unfold sql_update. rewrite coerce_row_with_updated_at, Ecr.
  rewrite (constraint_check_code_taken (Some i) _ (db w) j r2); [done | done | congruence |].
  simpl. done.
Qed.

Lemma X10_witness :
  fst (update 2 recode_patch world_two_types) = inl IntegrityError /\
  db (snd (update 2 recode_patch world_two_types)) = db world_two_types.
Proof.
  apply (X10_update_code_clash 2 1 recode_patch world_two_types
           (mkRow 1 "Follow-up" "follow_up" None 15 0 true "#3b82f6" 100 100)
           (mkRow 1 "Consultation" "consultation" None 15 0 true "#3b82f6" 100 100)
           (mkRow 1 "Follow-up" "consultation" None 15 0 true "#3b82f6" 100 100));
    try (vm_compute; reflexivity). lia.
Defined.

(** X11: on a reachable table, an Update of an existing row that assigns
    only [description] (with no NUL character), [is_active] and the
    timestamps, fields no constraint looks at, always succeeds. *)
Theorem X11_update_unconstrained_fields (i : nat) (p : Patch) (w : World)
    (old : AppointmentType) :
  reachable w -> rows (db w) !! i = Some old ->
  set_tenant_id p = None -> set_name p = None -> set_code p = None ->
  set_duration_default p = None -> set_base_consultation_fee p = None ->
  set_color p = None ->
  has_nul_opt (field_default (description old) (set_description p)) = false ->
  fst (update i p w) = inr tt.
Proof.
  intros Hr Hi Ht Hn Hc Hd Hf Hcol Hdesc. pose proof (reachable_inv w Hr) as Hw.
  pose proof (inv_stored w Hw i old Hi) as Hold.
  unfold update, objects_get. rewrite Hi.
  unfold save_existing. destruct (timezone_now (clock w)) as [t c]. simpl.
  unfold sql_update.
  assert (Hs : stored_ok (with_updated_at (apply_patch p old) t) = true).
  { unfold stored_ok in *. unfold with_updated_at, apply_patch. simpl.
    rewrite Ht, Hn, Hc, Hd, Hf, Hcol, Hdesc. simpl.
    destruct (has_nul (name old)), (has_nul (code old)), (has_nul (color old)),
      (has_nul_opt (description old)); simpl in *; first [exact Hold | discriminate Hold]. }
  rewrite (coerce_row_stored _ Hs).
  rewrite (constraint_check_resave w i old); [done | done | done | ..];
    unfold with_updated_at, apply_patch; simpl;
    [rewrite Ht | rewrite Hc | rewrite Hd]; done.
Qed.

Lemma X11_witness : fst (update 1 describe_patch world_two_types) = inr tt.
Proof.
  apply (X11_update_unconstrained_fields 1 describe_patch world_two_types
           (mkRow 1 "Consultation" "consultation" None 15 0 true "#3b82f6" 100 100));
    try (vm_compute; reflexivity).
  apply reachable_step, reachable_step, reachable_init.
Defined.

(** X12: every row of a reachable table fits its columns: [name] of at
    most 100 characters, [code] of at most 50, [duration_default] within
    [0 .. 2147483647], a fee below [10^8] in absolute value; so its
    [str()] has at most 153 characters. *)
Theorem X12_stored_rows_fit_columns (w : World) (i : nat) (r : AppointmentType) :
  reachable w -> rows (db w) !! i = Some r ->
  (String.length (name r) <= 100)%nat /\ (String.length (code r) <= 50)%nat /\
  (0 <= duration_default r <= int_max)%Z /\
  (Z.abs (base_consultation_fee r) < 10 ^ 10)%Z /\
  (String.length (__str__ r) <= 153)%nat.
Proof.
  intros Hr Hi.
  destruct (stored_ok_spec r (stored_lookup w i r Hr Hi))
    as (_ & _ & _ & _ & Ln & Lc & _ & Rd & Rf & Hd).
  split; [done|]. split; [done|]. split; [lia|]. split; [done|].
  unfold __str__. rewrite !string_length_append. simpl. lia.
Qed.

Lemma X12_witness :
  (String.length (name (mkRow 1 "Follow-up" "follow_up" None 15 0 true "#3b82f6" 100 100))
     <= 100)%nat /\
  (String.length (code (mkRow 1 "Follow-up" "follow_up" None 15 0 true "#3b82f6" 100 100))
     <= 50)%nat /\
  (0 <= duration_default (mkRow 1 "Follow-up" "follow_up" None 15 0 true "#3b82f6" 100 100)
     <= int_max)%Z /\
  (Z.abs (base_consultation_fee
            (mkRow 1 "Follow-up" "follow_up" None 15 0 true "#3b82f6" 100 100)) < 10 ^ 10)%Z /\
  (String.length (__str__ (mkRow 1 "Follow-up" "follow_up" None 15 0 true "#3b82f6" 100 100))
     <= 153)%nat.
Proof.
  apply (X12_stored_rows_fit_columns world_two_types 2).
  - apply reachable_step, reachable_step, reachable_init.
  - vm_compute. reflexivity.
Defined.

(** X13: a failed operation keeps every row: a failed Update or
    Deactivate leaves the table, sequence included, as it was; a failed
    Create leaves the sequence as it was when the driver or the column
    types refused the row, and has drawn one primary key when a constraint
    refused it ([IntegrityError]). *)
Theorem X13_failed_operations (w : World) :
  (forall (a : CreateArgs) (e : DbError),
     fst (objects_create a w) = inl e ->
     rows (db (snd (objects_create a w))) = rows (db w) /\
     next_id (db (snd (objects_create a w)))
     = match e with IntegrityError => S (next_id (db w)) | _ => next_id (db w) end) /\
  (forall (i : nat) (p : Patch) (e : DbError),
     fst (update i p w) = inl e -> db (snd (update i p w)) = db w) /\
  (forall (i : nat) (e : DbError),
     fst (deactivate i w) = inl e -> db (snd (deactivate i w)) = db w).
Proof.
  split; [|split].
  - intros a e He. destruct (objects_create a w) as [res w'] eqn:E. simpl in *.
    subst res. by apply (objects_create_inl a w w' e).
  - intros i p e. unfold update, objects_get.
    destruct (rows (db w) !! i) as [old|]; [|done].
    destruct (save_existing i (apply_patch p old) w) as [res w'] eqn:E. simpl.
    intros ->. apply save_existing_cases in E as [_ [[r' [? _]] | [e' [_ ?]]]];
      [discriminate | done].
  - intros i e. unfold deactivate, objects_get.
    destruct (rows (db w) !! i) as [old|]; [|done].
    destruct (save_existing i _ w) as [res w'] eqn:E. simpl.
    intros ->. apply save_existing_cases in E as [_ [[r' [? _]] | [e' [_ ?]]]];
      [discriminate | done].
Qed.

Lemma X13_witness :
  rows (db (snd (objects_create other_tenant_args world_consultation)))
  = rows (db world_consultation) /\
  next_id (db (snd (objects_create other_tenant_args world_consultation)))
  = S (next_id (db world_consultation)).
Proof.
  apply (proj1 (X13_failed_operations world_consultation) other_tenant_args IntegrityError).
  vm_compute. reflexivity.
Defined.

(** X15: an Update that leaves the NUL character in [name], [code],
    [description] or [color] of the row is refused by the driver
    ([NulCharacter]) and leaves the table as it was. *)
Theorem X15_update_nul_refused (i : nat) (p : Patch) (w : World) (old : AppointmentType) :
  rows (db w) !! i = Some old ->
  has_nul (name (apply_patch p old)) || has_nul (code (apply_patch p old))
  || has_nul_opt (description (apply_patch p old))
  || has_nul (color (apply_patch p old)) = true ->
  fst (update i p w) = inl NulCharacter /\ db (snd (update i p w)) = db w.
Proof.
  intros Hi Hnul. unfold update, objects_get. rewrite Hi.
  unfold save_existing. destruct (timezone_now (clock w)) as [t c]. simpl.
  unfold sql_update. rewrite coerce_row_with_updated_at.
  assert (E : coerce_row (apply_patch p old) = inl NulCharacter)
    by (unfold coerce_row; by rewrite Hnul).
  by rewrite E.
Qed.

Lemma X15_witness :
  fst (update 1 (mkPatch None None None (Some (Some nul_string)) None None None None
                   None None) world_consultation) = inl NulCharacter /\
  db (snd (update 1 (mkPatch None None None (Some (Some nul_string)) None None None None
                       None None) world_consultation)) = db world_consultation.
Proof.
  apply (X15_update_nul_refused 1 _ world_consultation
           (mkRow 1 "Consultation" "consultation" None 15 0 true "#3b82f6" 100 100));
    vm_compute; reflexivity.
Defined.

End AppointmentTypes.
